(** * News article POS analyzer: a shallow embedding of [main.py]

    The script fetches a news article, extracts its body text with a
    prioritised list of CSS selectors and reports part-of-speech statistics.
    The libraries it calls ([requests], [bs4], [nltk], [streamlit]) are not
    part of the program: they appear here as an interface, [Collaborators],
    whose operations the embedded functions call in the order the script
    does.  Python strings are modelled as [string], Python's [Counter] as an
    association list in insertion order (the order decides ties in
    [most_common]), the [pos_examples] dictionary as a [gmap]. *)

From Stdlib Require Import Ascii.
From stdpp Require Import gmap strings list pretty sorting.

Set Warnings "-register-all".

(** ** Python values and built-ins *)

(** An exception object: its class name and what [str(e)] returns. *)
Record exception := Exception { exc_class : string; exc_str : string }.

(** The dynamically typed values the script passes around. *)
Inductive pyval :=
| PyNone
| PyStr (s : string)
| PyInt (n : Z)
| PyTuple (items : list pyval).

(** [isinstance(v, tuple)] *)
Definition isinstance_tuple (v : pyval) : bool :=
  match v with
  | PyTuple _ => true
  | _ => false
  end.

(** Truth value of a [str]: the empty string is false. *)
Definition truthy (s : string) : bool :=
  match s with
  | EmptyString => false
  | String _ _ => true
  end.

(** [sep.join(parts)] *)
Definition join (sep : string) (parts : list string) : string :=
  String.concat sep parts.

(** [s[:n]] *)
Definition slice_to (n : nat) (s : string) : string := String.substring 0 n s.

(** ** [collections.Counter] *)

(** A counter is a dictionary from keys to counts that remembers the order in
    which its keys were first inserted. *)
Definition counter := list (string * nat).

(** [c[k] = c.get(k, 0) + 1]: an existing key keeps its position, a new key
    goes to the end. *)
Fixpoint counter_add (k : string) (c : counter) : counter :=
  match c with
  | [] => [(k, 1)]
  | (k', n) :: c' =>
      if decide (k = k') then (k', S n) :: c' else (k', n) :: counter_add k c'
  end.

(** [Counter(iterable)] *)
Definition Counter (xs : list string) : counter :=
  foldl (λ c k, counter_add k c) [] xs.

(** [c[k]], which is 0 for a missing key. *)
Fixpoint counter_get (c : counter) (k : string) : nat :=
  match c with
  | [] => 0
  | (k', n) :: c' => if decide (k = k') then n else counter_get c' k
  end.

(** [sorted(items, key=itemgetter(1), reverse=True)]: Python's sort is stable,
    also with [reverse=True], so items with equal counts keep their relative
    order.  An item is inserted in front of the first item whose count does
    not exceed its own. *)
Fixpoint insert_desc (x : string * nat) (l : list (string * nat)) :
    list (string * nat) :=
  match l with
  | [] => [x]
  | y :: l' => if decide (y.2 ≤ x.2) then x :: y :: l' else y :: insert_desc x l'
  end.

Definition sorted_by_count_desc (l : list (string * nat)) : list (string * nat) :=
  foldr insert_desc [] l.

(** [c.most_common(n)]: with [n = None] the whole sorted item list; with a
    number, [heapq.nlargest(n, items, key=itemgetter(1))], which is
    [sorted(items, key=..., reverse=True)[:n]]. *)
Definition most_common (n : option nat) (c : counter) : list (string * nat) :=
  match n with
  | None => sorted_by_count_desc c
  | Some n => take n (sorted_by_count_desc c)
  end.

(** [xs[i]] for a list: [IndexError] when out of range. *)
Definition IndexError : exception :=
  Exception "IndexError" "list index out of range".

Inductive result (A : Type) :=
| Ok (a : A)
| Raise (e : exception).
Arguments Ok {A} a.
Arguments Raise {A} e.

Definition list_index {A} (xs : list A) (i : nat) : result A :=
  match xs !! i with
  | Some x => Ok x
  | None => Raise IndexError
  end.

(** ** What the script observes of the outside world *)

(** A row of the [pandas.DataFrame] shown as the ranked table. *)
Record df_row := DfRow { POS_Tag : string; Description : string; Count : nat }.

(** The trace of a run: the calls made to the network, to the selector
    queries of the HTML parser and to NLTK, and the Streamlit output, in the
    order they happen. *)
Inductive event :=
| requests_get_call (url : string) (timeout : nat)
| select_one_call (selector : string)
| find_all_call (name : string)
| word_tokenize_call (text : string)
| pos_tag_call (tokens : list string)
| st_spinner (label : string)
| st_expander (label : string)
| st_columns (n : nat)
| st_error (body : string)
| st_warning (body : string)
| st_success (body : string)
| st_info (body : string)
| st_write (body : string)
| st_subheader (body : string)
| st_metric (label : string) (value : pyval)
| st_dataframe (data : list df_row)
| st_bar_chart (data : list (string * nat)).

(** The libraries the script calls.  [W] is whatever state lives outside the
    script (the network, NLTK's loaded models); the HTTP request and the two
    NLTK calls read and may change it.  The parser operations work on the
    parsed tree only.  [decompose_all names soup] stands for the loop
    [for t in soup(names): t.decompose()]: the tree without the elements of
    these kinds. *)
Class Collaborators := {
  W : Type;
  bytes : Type;
  response : Type;
  document : Type;
  element : Type;
  http_get : string → list (string * string) → nat → W → result response * W;
  raise_for_status : response → result ();
  content : response → bytes;
  BeautifulSoup : bytes → string → document;
  decompose_all : list string → document → document;
  css_select_one : document → string → option element;
  get_text : element → string → bool → string;
  tags_named : document → string → list element;
  nltk_word_tokenize : string → W → list string * W;
  nltk_pos_tag : list string → W → list (string * string) * W;
}.

(** ** The program *)

Definition dquote : string := String "034"%char EmptyString.

(** [POS_DESCRIPTIONS] *)
Definition POS_DESCRIPTIONS : gmap string string :=
  list_to_map [
    ("NN", "Noun, singular");
    ("NNS", "Noun, plural");
    ("NNP", "Proper noun, singular");
    ("NNPS", "Proper noun, plural");
    ("VB", "Verb, base form");
    ("VBD", "Verb, past tense");
    ("VBG", "Verb, gerund/present participle");
    ("VBN", "Verb, past participle");
    ("VBP", "Verb, non-3rd person singular present");
    ("VBZ", "Verb, 3rd person singular present");
    ("JJ", "Adjective");
    ("JJR", "Adjective, comparative");
    ("JJS", "Adjective, superlative");
    ("RB", "Adverb");
    ("RBR", "Adverb, comparative");
    ("RBS", "Adverb, superlative");
    ("PRP", "Personal pronoun");
    ("PRP$", "Possessive pronoun");
    ("DT", "Determiner");
    ("IN", "Preposition/subordinating conjunction");
    ("CC", "Coordinating conjunction");
    ("CD", "Cardinal number");
    ("TO", "to");
    ("MD", "Modal")
  ].

(** [POS_DESCRIPTIONS.get(tag, 'Other')] *)
Definition describe (tag : string) : string :=
  default "Other" (POS_DESCRIPTIONS !! tag).

(** The selectors tried for the article body, in this order. *)
Definition selectors : list string := [
  "article";
  ".article-content";
  ".story-content";
  "[class*=" +:+ dquote +:+ "article" +:+ dquote +:+ "]";
  "[class*=" +:+ dquote +:+ "content" +:+ dquote +:+ "]"
].

Definition headers : list (string * string) :=
  [("User-Agent", "Mozilla/5.0 (Windows NT 10.0; Win64; x64) AppleWebKit/537.36")].

(** The table rows built from [pos_counts.most_common()]. *)
Definition dataframe (pos_counts : counter) : list df_row :=
  (λ '(tag, count), DfRow tag (describe tag) count) <$> most_common None pos_counts.

(** One iteration of the loop that fills [pos_examples]. *)
Definition pos_examples_step (pos_examples : gmap string (list string))
    (item : string * string) : gmap string (list string) :=
  let '(word, tag) := item in
  let pos_examples :=
    match pos_examples !! tag with
    | None => <[tag := []]> pos_examples
    | Some _ => pos_examples
    end in
  let examples := default [] (pos_examples !! tag) in
  if decide (length examples < 5)
  then <[tag := examples ++ [word]]> pos_examples
  else pos_examples.

Definition build_pos_examples (pos_tags : list (string * string)) :
    gmap string (list string) :=
  foldl pos_examples_step ∅ pos_tags.

(** The line written for one entry of [pos_counts.most_common(10)]. *)
Definition sample_line (pos_examples : gmap string (list string))
    (tag : string * nat) : string :=
  let tag_name := tag.1 in
  "**" +:+ tag_name +:+ "** (" +:+ describe tag_name +:+ "): "
    +:+ join ", " (default [] (pos_examples !! tag_name)).

(** [pos_counts.most_common(1)[0][0]] *)
Definition most_common_tag (pos_counts : counter) : result string :=
  match list_index (most_common (Some 1) pos_counts) 0 with
  | Ok item => Ok item.1
  | Raise e => Raise e
  end.

(** [top_10.set_index('POS Tag')['Count']]; a frame built from no rows has no
    columns, and selecting one raises [KeyError]. *)
Definition set_index_count (df : list df_row) : result (list (string * nat)) :=
  match df with
  | [] => Raise (Exception "KeyError" "None of ['POS Tag'] are in the columns")
  | _ => Ok ((λ r, (POS_Tag r, Count r)) <$> df)
  end.

(** Truth value of a Python value. *)
Definition py_truthy (v : pyval) : bool :=
  match v with
  | PyNone => false
  | PyStr s => truthy s
  | PyInt n => negb (n =? 0)%Z
  | PyTuple items => negb (bool_decide (items = []))
  end.

(** What an f-string shows for a value; the script only formats strings. *)
Definition py_format (v : pyval) : string :=
  match v with
  | PyNone => "None"
  | PyStr s => s
  | PyInt n => pretty n
  | PyTuple _ => "(...)"
  end.

Section Program.
Context `{Collaborators}.

(** The state of a run and the monad the script runs in: a call returns a
    value or raises, and leaves a new state behind. *)
Record world := World { ext : W; trace : list event }.

Definition M (A : Type) : Type := world → result A * world.

#[export] Instance M_ret : MRet M := λ A a w, (Ok a, w).

#[export] Instance M_bind : MBind M := λ A B f m w,
  match m w with
  | (Ok a, w') => f a w'
  | (Raise e, w') => (Raise e, w')
  end.

Definition raise {A} (e : exception) : M A := λ w, (Raise e, w).

(** [try: body / except Exception as e: handler e] *)
Definition try_except {A} (body : M A) (handler : exception → M A) : M A :=
  λ w,
  match body w with
  | (Ok a, w') => (Ok a, w')
  | (Raise e, w') => handler e w'
  end.

Definition emit (ev : event) : M () :=
  λ w, (Ok (), World (ext w) (trace w ++ [ev])).

Definition lift_result {A} (r : result A) : M A := λ w, (r, w).

(** [requests.get(url, headers=headers, timeout=timeout)] *)
Definition requests_get (url : string) (hdrs : list (string * string))
    (timeout : nat) : M response :=
  λ w, let '(r, x) := http_get url hdrs timeout (ext w) in
       (r, World x (trace w ++ [requests_get_call url timeout])).

(** [soup.select_one(selector)] *)
Definition select_one (soup : document) (selector : string) : M (option element) :=
  emit (select_one_call selector);;
  mret (css_select_one soup selector).

(** [soup.find_all(name)] *)
Definition find_all (soup : document) (name : string) : M (list element) :=
  emit (find_all_call name);;
  mret (tags_named soup name).

(** [word_tokenize(text)] *)
Definition word_tokenize (text : string) : M (list string) :=
  λ w, let '(tokens, x) := nltk_word_tokenize text (ext w) in
       (Ok tokens, World x (trace w ++ [word_tokenize_call text])).

(** [pos_tag(tokens)] *)
Definition pos_tag (tokens : list string) : M (list (string * string)) :=
  λ w, let '(tagged, x) := nltk_pos_tag tokens (ext w) in
       (Ok tagged, World x (trace w ++ [pos_tag_call tokens])).

(** The loop over [selectors]: the text of the first element found, or the
    initial [''] when no selector finds one.  [select_one] returns [None] or
    an element, and an element is always true in [if content:]. *)
Fixpoint try_selectors (soup : document) (sels : list string) : M string :=
  match sels with
  | [] => mret ""
  | selector :: sels =>
      content ← select_one soup selector;
      match content with
      | Some content => mret (get_text content " " true)
      | None => try_selectors soup sels
      end
  end.

(** The body of [fetch_article] once the page is parsed and cleaned. *)
Definition extract_text (soup : document) : M string :=
  article_text ← try_selectors soup selectors;
  if truthy article_text then mret article_text
  else
    paragraphs ← find_all soup "p";
    mret (join " " ((λ p, get_text p "" true) <$> paragraphs)).

Definition fetch_article (url : string) : M pyval :=
  try_except
    (response ← requests_get url headers 10;
     lift_result (raise_for_status response);;
     let soup := BeautifulSoup (content response) "html.parser" in
     let soup := decompose_all ["script"; "style"; "nav"; "header"; "footer"] soup in
     article_text ← extract_text soup;
     mret (PyStr article_text))
    (λ e, mret (PyTuple [PyNone; PyStr (exc_str e)])).

Definition analyze_pos (text : string) : M (list (string * string) * counter) :=
  tokens ← word_tokenize text;
  pos_tags ← pos_tag tokens;
  let pos_counts := Counter (pos_tags.*2) in
  mret (pos_tags, pos_counts).

(** [a, b = v] for a tuple [v]. *)
Definition unpack2 (v : pyval) : M (pyval * pyval) :=
  match v with
  | PyTuple [a; b] => mret (a, b)
  | PyTuple _ => raise (Exception "ValueError" "wrong number of values to unpack")
  | _ => raise (Exception "TypeError" "cannot unpack non-iterable object")
  end.

Fixpoint for_each {A} (xs : list A) (body : A → M ()) : M () :=
  match xs with
  | [] => mret ()
  | x :: xs => body x;; for_each xs body
  end.

(** The expander with sample words for the ten most common tags. *)
Definition show_samples (pos_tags : list (string * string))
    (pos_counts : counter) : M () :=
  emit (st_expander "🔍 Sample Words by POS Tag");;
  let pos_examples := build_pos_examples pos_tags in
  for_each (most_common (Some 10) pos_counts)
    (λ tag, emit (st_write (sample_line pos_examples tag))).

(** The display of a fetched, non-empty article text. *)
Definition report (article_text : string) : M () :=
  emit (st_success "Article fetched successfully!");;
  emit (st_expander "📄 Article Text Preview (first 500 characters)");;
  emit (st_write (slice_to 500 article_text +:+ "..."));;
  emit (st_info ("**Total characters:** " +:+ pretty (String.length article_text)));;
  emit (st_spinner "Analyzing parts of speech...");;
  '(pos_tags, pos_counts) ← analyze_pos article_text;
  emit (st_subheader "📊 Parts of Speech Analysis");;
  let df := dataframe pos_counts in
  emit (st_columns 3);;
  emit (st_metric "Total Words" (PyInt (Z.of_nat (length pos_tags))));;
  emit (st_metric "Unique POS Tags" (PyInt (Z.of_nat (length pos_counts))));;
  top ← lift_result (most_common_tag pos_counts);
  emit (st_metric "Most Common Tag" (PyStr top));;
  emit (st_dataframe df);;
  emit (st_subheader "📈 Top 10 Most Frequent POS Tags");;
  let top_10 := take 10 df in
  chart ← lift_result (set_index_count top_10);
  emit (st_bar_chart chart);;
  show_samples pos_tags pos_counts.

(** The module-level block run when the page is rendered: [clicked] is what
    [st.button] returns, [url] the content of the text input. *)
Definition main (clicked : bool) (url : string) : M () :=
  if clicked then
    if truthy url then
      emit (st_spinner "Fetching article...");;
      result ← fetch_article url;
      if isinstance_tuple result then
        '(article_text, error) ← unpack2 result;
        emit (st_error ("Error fetching article: " +:+ py_format error))
      else
        let article_text := result in
        if py_truthy article_text then
          match article_text with
          | PyStr article_text => report article_text
          | _ => raise (Exception "TypeError" "object is not subscriptable")
          end
        else
          emit (st_error
            "Could not extract text from the article. Please try a different URL.")
    else emit (st_warning "Please enter a valid URL")
  else mret ().
End Program.

(** ** The NLTK data directory *)

(** Calls made to NLTK's data directory. *)
Inductive data_event :=
| data_find_call (resource : string)
| download_call (package : string).

(** NLTK's data and downloader.  [D] is the state of the data directory;
    [nltk_data_find] returns or raises, [nltk_download] returns a success
    flag or raises.  [isinstance_LookupError] tells whether an exception is
    caught by [except LookupError]. *)
Class NltkData := {
  D : Type;
  nltk_data_find : string → D → result () * D;
  nltk_download : string → D → result bool * D;
  isinstance_LookupError : exception → bool;
}.

(** The three resources looked up and the three packages downloaded. *)
Definition resources : list string :=
  ["tokenizers/punkt"; "tokenizers/punkt_tab"; "taggers/averaged_perceptron_tagger"].

Definition packages : list string :=
  ["punkt"; "punkt_tab"; "averaged_perceptron_tagger"].

Section Download.
Context `{NltkData}.

(** The state seen by [download_nltk_data]: the data directory, the calls
    made so far, and whether [st.cache_resource] holds a result for it. *)
Record data_world := DataWorld {
  data : D;
  data_trace : list data_event;
  cached : bool
}.

Definition N (A : Type) : Type := data_world → result A * data_world.

#[export] Instance N_ret : MRet N := λ A a w, (Ok a, w).

#[export] Instance N_bind : MBind N := λ A B f m w,
  match m w with
  | (Ok a, w') => f a w'
  | (Raise e, w') => (Raise e, w')
  end.

(** [nltk.data.find(resource)] *)
Definition data_find (resource : string) : N () :=
  λ w, let '(r, d) := nltk_data_find resource (data w) in
       (r, DataWorld d (data_trace w ++ [data_find_call resource]) (cached w)).

(** [nltk.download(package)] *)
Definition download (package : string) : N bool :=
  λ w, let '(r, d) := nltk_download package (data w) in
       (r, DataWorld d (data_trace w ++ [download_call package]) (cached w)).

(** [try: body / except LookupError: handler]: other exceptions go on. *)
Definition try_except_LookupError {A} (body : N A) (handler : N A) : N A :=
  λ w,
  match body w with
  | (Ok a, w') => (Ok a, w')
  | (Raise e, w') =>
      if isinstance_LookupError e then handler w' else (Raise e, w')
  end.

(** The [try] block of [download_nltk_data]. *)
Definition lookup_resources : N () :=
  data_find "tokenizers/punkt";;
  data_find "tokenizers/punkt_tab";;
  data_find "taggers/averaged_perceptron_tagger".

(** The [except LookupError] block of [download_nltk_data]. *)
Definition download_packages : N () :=
  download "punkt";;
  download "punkt_tab";;
  download "averaged_perceptron_tagger";;
  mret ().

(** The body of [download_nltk_data]. *)
Definition download_nltk_data_body : N () :=
  try_except_LookupError lookup_resources download_packages.

(** [@st.cache_resource]: the body runs when nothing is cached; a result is
    cached when the body returns, not when it raises. *)
Definition cache_resource (body : N ()) : N () :=
  λ w,
  if cached w then (Ok (), w)
  else
    match body w with
    | (Ok _, w') => (Ok (), DataWorld (data w') (data_trace w') true)
    | (Raise e, w') => (Raise e, w')
    end.

Definition download_nltk_data : N () := cache_resource download_nltk_data_body.
End Download.

(** ** Vocabulary of the statements *)

(** The number of occurrences of [tag] in a list of tags. *)
Definition occurrences (tag : string) (tags : list string) : nat :=
  length (filter (λ t, t = tag) tags).

(** [a] stands somewhere in front of [b] in [l]. *)
Definition before {A} (a b : A) (l : list A) : Prop :=
  ∃ l1 l2 l3, l = l1 ++ a :: l2 ++ b :: l3.

Definition descending : relation (string * nat) := λ a b, b.2 ≤ a.2.

(** The first occurrence of [t1] comes before every occurrence of [t2], and
    [t2] occurs. *)
Definition first_before (t1 t2 : string) (tags : list string) : Prop :=
  ∃ l1 l2, tags = l1 ++ t1 :: l2 ∧ (t1 ∉ l1) ∧ (t2 ∉ l1) ∧ (t2 ≠ t1) ∧ t2 ∈ l2.

(** The words carrying [tag], in the order of the tagged sequence. *)
Definition words_tagged (tag : string) (pos_tags : list (string * string)) :
    list string :=
  (filter (λ p, p.2 = tag) pos_tags).*1.



Section Vocabulary.
Context `{Collaborators}.

(** The tree the selectors are tried on. *)
Definition cleaned (resp : response) : document :=
  decompose_all ["script"; "style"; "nav"; "header"; "footer"]
    (BeautifulSoup (content resp) "html.parser").

Definition no_match (soup : document) (selector : string) : Prop :=
  css_select_one soup selector = None.

(** The paragraph fallback of [extract_text]. *)
Definition paragraph_text (soup : document) : string :=
  join " " ((λ p, get_text p "" true) <$> tags_named soup "p").

Definition logged (w : world) (events : list event) : world :=
  World (ext w) (trace w ++ events).

(** What the tokenizer returns for [text] in outside state [x], and what
    the tagger then returns for these tokens. *)
Definition tokens_of (text : string) (x : W) : list string :=
  (nltk_word_tokenize text x).1.

Definition tagged_of (text : string) (x : W) : list (string * string) :=
  let '(tokens, x1) := nltk_word_tokenize text x in
  (nltk_pos_tag tokens x1).1.

Definition after_nltk (text : string) (x : W) : W :=
  let '(tokens, x1) := nltk_word_tokenize text x in
  (nltk_pos_tag tokens x1).2.

(** The events [report] produces up to the point where the most common tag
    is looked up. *)
Definition report_prefix (article_text : string) (tokens : list string)
    (pos_tags : list (string * string)) : list event := [
  st_success "Article fetched successfully!";
  st_expander "📄 Article Text Preview (first 500 characters)";
  st_write (slice_to 500 article_text +:+ "...");
  st_info ("**Total characters:** " +:+ pretty (String.length article_text));
  st_spinner "Analyzing parts of speech...";
  word_tokenize_call article_text;
  pos_tag_call tokens;
  st_subheader "📊 Parts of Speech Analysis";
  st_columns 3;
  st_metric "Total Words" (PyInt (Z.of_nat (length pos_tags)));
  st_metric "Unique POS Tags"
    (PyInt (Z.of_nat (length (Counter pos_tags.*2))))
].
End Vocabulary.

Section DownloadVocabulary.
Context `{NltkData}.

(** The data directory after the lookups of [rs], when all of them return. *)
Fixpoint found_all (rs : list string) (d : D) : option D :=
  match rs with
  | [] => Some d
  | r :: rs =>
      match nltk_data_find r d with
      | (Ok _, d') => found_all rs d'
      | (Raise _, _) => None
      end
  end.

(** The data directory after the downloads of [ps], when none of them
    raises. *)
Fixpoint downloaded_all (ps : list string) (d : D) : option D :=
  match ps with
  | [] => Some d
  | p :: ps =>
      match nltk_download p d with
      | (Ok _, d') => downloaded_all ps d'
      | (Raise _, _) => None
      end
  end.

Definition is_download (ev : data_event) : bool :=
  match ev with
  | download_call _ => true
  | data_find_call _ => false
  end.
End DownloadVocabulary.

(** ** A concrete set of collaborators

    A small HTML tree with the parser operations the script uses, a
    word-and-punctuation tokenizer with a dictionary tagger, and a network
    given as a table from URLs to responses.  The program is run on it to
    obtain concrete instances of the statements below. *)
Module Sample.

(** A parsed page: text nodes and elements with a name, the values of the
    [class] attribute and children. *)
Inductive node :=
| Text (s : string)
| Tag (name : string) (classes : list string) (children : list node).

(** Python's [str.isspace] on the ASCII range. *)
Definition is_space (c : ascii) : bool :=
  let n := Ascii.nat_of_ascii c in
  bool_decide (9 ≤ n ≤ 13) || bool_decide (28 ≤ n ≤ 32).

Fixpoint lstrip (s : string) : string :=
  match s with
  | String c s' => if is_space c then lstrip s' else s
  | EmptyString => EmptyString
  end.

(** [s.strip()] *)
Definition strip (s : string) : string :=
  String.rev (lstrip (String.rev (lstrip s))).

(** [needle in hay] *)
Fixpoint contains (needle hay : string) : bool :=
  String.prefix needle hay ||
  match hay with
  | String _ hay' => contains needle hay'
  | EmptyString => false
  end.

(** The strings below a node, in document order. *)
Fixpoint strings (n : node) : list string :=
  match n with
  | Text s => [s]
  | Tag _ _ children => flat_map strings children
  end.

(** The elements at and below a node, in document order. *)
Fixpoint elements (n : node) : list node :=
  match n with
  | Text _ => []
  | Tag _ _ children => n :: flat_map elements children
  end.

(** The tree without the elements named in [names]. *)
Fixpoint remove_named (names : list string) (n : node) : list node :=
  match n with
  | Text s => [Text s]
  | Tag name classes children =>
      if bool_decide (name ∈ names) then []
      else [Tag name classes (flat_map (remove_named names) children)]
  end.

(** [tag.get_text(separator, strip)]: with [strip] every string is stripped
    and the empty ones are left out; the rest is joined by [separator]. *)
Definition node_text (n : node) (separator : string) (strip_each : bool) : string :=
  let parts :=
    if strip_each
    then filter (λ s, s ≠ "") (strip <$> strings n)
    else strings n in
  join separator parts.

(** The three forms of selector the script uses. *)
Inductive selector :=
| ByName (name : string)
| ByClass (class : string)
| ByClassSubstring (part : string).

Definition parse_selector (s : string) : selector :=
  let opening := "[class*=" +:+ dquote in
  let closing := dquote +:+ "]" in
  if String.prefix opening s
  then ByClassSubstring
         (String.substring (String.length opening)
            (String.length s - String.length opening - String.length closing) s)
  else match s with
       | String "." class => ByClass class
       | _ => ByName s
       end.

Definition matches (sel : selector) (n : node) : bool :=
  match n with
  | Text _ => false
  | Tag name classes _ =>
      match sel with
      | ByName wanted => bool_decide (name = wanted)
      | ByClass wanted => bool_decide (wanted ∈ classes)
      | ByClassSubstring part =>
          negb (bool_decide (classes = [])) && contains part (join " " classes)
      end
  end.

Definition select (doc : list node) (s : string) : option node :=
  head (filter (λ n, matches (parse_selector s) n) (flat_map elements doc)).

Definition named (doc : list node) (name : string) : list node :=
  filter (λ n, matches (ByName name) n) (flat_map elements doc).

(** A response: status line, requested URL and the parsed payload. *)
Record page := Page {
  status_code : nat;
  reason : string;
  page_url : string;
  payload : list node
}.

(** [requests]' [Response.raise_for_status]. *)
Definition check_status (r : page) : result () :=
  let describe kind :=
    pretty (status_code r) +:+ " " +:+ kind +:+ " Error: " +:+ reason r
      +:+ " for url: " +:+ page_url r in
  if bool_decide (400 ≤ status_code r < 500)
  then Raise (Exception "HTTPError" (describe "Client"))
  else if bool_decide (500 ≤ status_code r < 600)
  then Raise (Exception "HTTPError" (describe "Server"))
  else Ok ().

(** Is [c] a letter, a digit or an apostrophe? *)
Definition is_word_char (c : ascii) : bool :=
  let n := Ascii.nat_of_ascii c in
  bool_decide (48 ≤ n ≤ 57) || bool_decide (65 ≤ n ≤ 90)
  || bool_decide (97 ≤ n ≤ 122) || bool_decide (n = 39).

Definition flush (word : string) (tokens : list string) : list string :=
  if truthy word then tokens ++ [String.rev word] else tokens.

(** Words are runs of word characters; every other non-space character is a
    token of its own.  [word] holds the current word, reversed. *)
Fixpoint tokenize_from (word : string) (tokens : list string) (s : string) :
    list string :=
  match s with
  | EmptyString => flush word tokens
  | String c s' =>
      if is_word_char c then tokenize_from (String c word) tokens s'
      else if is_space c then tokenize_from "" (flush word tokens) s'
      else tokenize_from "" (flush word tokens ++ [String c ""]) s'
  end.

Definition tokenize (text : string) : list string := tokenize_from "" [] text.

Definition lexicon : gmap string string :=
  list_to_map [
    ("The", "DT"); ("the", "DT"); ("a", "DT");
    ("cat", "NN"); ("dog", "NN");
    ("sat", "VBD"); ("ran", "VBD");
    ("fast", "RB"); ("and", "CC"); (".", "."); (",", ",")
  ].

Definition tag_word (word : string) : string := default "NN" (lexicon !! word).

(** The outside world: what each URL answers, and how many times NLTK has
    been called (a piece of state the calls change). *)
Record outside := Outside {
  network : string → result page;
  nltk_calls : nat
}.

#[export] Instance collaborators : Collaborators := {|
  W := outside;
  bytes := list node;
  response := page;
  document := list node;
  element := node;
  http_get url _ _ w := (network w url, w);
  raise_for_status := check_status;
  content := payload;
  BeautifulSoup markup _ := markup;
  decompose_all names doc := flat_map (remove_named names) doc;
  css_select_one := select;
  get_text := node_text;
  tags_named := named;
  nltk_word_tokenize text w := (tokenize text, Outside (network w) (S (nltk_calls w)));
  nltk_pos_tag tokens w :=
    ((λ t, (t, tag_word t)) <$> tokens, Outside (network w) (S (nltk_calls w)));
|}.

(** Pages and worlds used as examples. *)
Definition timeout_error : exception :=
  Exception "ConnectTimeout" "HTTPConnectionPool(host='news.example', port=80): Max retries exceeded (connect timeout=10)".

Definition page_ok (doc : list node) : result page :=
  Ok (Page 200 "OK" "http://news.example/a" doc).

Definition serving (r : result page) : world :=
  World (Outside (λ _, r) 0) [].

Definition run {A} (m : M A) (w : world) : result A * list event :=
  let '(r, w') := m w in (r, trace w').

(** Example pages and failures. *)
Definition story_page : list node := [
  Tag "header" [] [Tag "nav" [] [Text "Home"]];
  Tag "article" [] [
    Tag "h1" [] [Text " The cat sat. "];
    Tag "p" [] [Text "The dog ran fast."]
  ];
  Tag "div" ["article-content"] [Tag "p" [] [Text "Teaser"]];
  Tag "script" [] [Text "track()"]
].

Definition hollow_page : list node := [
  Tag "article" [] [Text " "];
  Tag "div" ["article-content"] [Tag "p" [] [Text "Hello"]]
].


Definition blank_page : list node := [Tag "div" [] [Text "nothing here"]].

Definition empty_paragraphs_page : list node := [Tag "p" [] []; Tag "p" [] []].


Definition address : string := "http://news.example/a".

Definition sentence : string := "The cat sat. The dog ran fast.".

Definition story_world : world := serving (page_ok story_page).

Definition hollow_world : world := serving (page_ok hollow_page).


Definition blank_world : world := serving (page_ok blank_page).

Definition empty_paragraphs_world : world :=
  serving (page_ok empty_paragraphs_page).



Definition timeout_world : world := serving (Raise timeout_error).

(** A data directory: the resources installed, and those that cannot be
    read. *)
Record data_dir := DataDir {
  installed : list string;
  unreadable : list string
}.

Definition resource_of (package : string) : string :=
  if bool_decide (package = "averaged_perceptron_tagger")
  then "taggers/" +:+ package
  else "tokenizers/" +:+ package.

Definition missing_error (resource : string) : exception :=
  Exception "LookupError" ("Resource " +:+ resource +:+ " not found.").

Definition permission_error (resource : string) : exception :=
  Exception "PermissionError" ("Permission denied: " +:+ resource).

#[export] Instance data_collaborators : NltkData := {|
  D := data_dir;
  nltk_data_find resource d :=
    (if bool_decide (resource ∈ unreadable d) then Raise (permission_error resource)
     else if bool_decide (resource ∈ installed d) then Ok ()
     else Raise (missing_error resource),
     d);
  nltk_download package d :=
    (Ok true, DataDir (installed d ++ [resource_of package]) (unreadable d));
  isinstance_LookupError e :=
    bool_decide (exc_class e ∈ ["LookupError"; "IndexError"; "KeyError"]);
|}.

Definition fresh_install : data_world :=
  DataWorld (DataDir ["tokenizers/punkt"] []) [] false.

Definition locked_install : data_world :=
  DataWorld (DataDir resources ["taggers/averaged_perceptron_tagger"]) [] false.

Definition mixed_tags : list string := ["NN"; "DT"; "NN"; "VB"; "DT"; "IN"].
End Sample.

(** * Properties *)

(** ** Counters *)

Lemma occurrences_snoc tag tags t :
  occurrences tag (tags ++ [t]) =
  occurrences tag tags + (if decide (t = tag) then 1 else 0).
Proof.
  unfold occurrences. rewrite filter_app, length_app. f_equal.
  rewrite filter_cons, filter_nil. by case_decide.
Qed.

Lemma occurrences_pos tag tags : tag ∈ tags ↔ 1 ≤ occurrences tag tags.
Proof.
  unfold occurrences. split.
  - intros Hin. assert (Hf : tag ∈ filter (λ t, t = tag) tags)
      by (apply list_elem_of_filter; done).
    destruct (filter _ tags); [by apply elem_of_nil in Hf | simpl; lia].
  - intros Hlen. destruct (filter (λ t, t = tag) tags) as [|t l] eqn:E;
      [simpl in Hlen; lia |].
    assert (Hf : t ∈ filter (λ t, t = tag) tags) by (rewrite E; left).
    apply list_elem_of_filter in Hf as [-> ?]. done.
Qed.

Lemma Counter_snoc xs x : Counter (xs ++ [x]) = counter_add x (Counter xs).
Proof. unfold Counter. by rewrite foldl_snoc. Qed.

Lemma counter_add_keys k c :
  (counter_add k c).*1 = if decide (k ∈ c.*1) then c.*1 else c.*1 ++ [k].
Proof.
  induction c as [|[k' n] c IH]; csimpl.
  - destruct (decide (k ∈ [])) as [Hin|_]; [by apply elem_of_nil in Hin | done].
  - destruct (decide (k = k')) as [->|Hne]; csimpl.
    + rewrite decide_True by left. done.
    + rewrite IH. destruct (decide (k ∈ c.*1)) as [Hin|Hnin].
      * rewrite decide_True by (by right). done.
      * rewrite decide_False; [done |].
        intros [?|?]%elem_of_cons; done.
Qed.

Lemma counter_add_get k c k' :
  counter_get (counter_add k c) k' =
  counter_get c k' + (if decide (k = k') then 1 else 0).
Proof.
  induction c as [|[k0 n] c IH]; csimpl.
  - destruct (decide (k' = k)) as [->|Hne].
    + rewrite decide_True by done. done.
    + rewrite decide_False by done. done.
  - destruct (decide (k = k0)) as [->|Hne]; csimpl.
    + destruct (decide (k' = k0)) as [->|Hne'].
      * rewrite decide_True by done. lia.
      * rewrite decide_False by done. lia.
    + destruct (decide (k' = k0)) as [->|Hne'].
      * rewrite decide_False by done. lia.
      * apply IH.
Qed.

Lemma counter_add_sum k c :
  sum_list (counter_add k c).*2 = S (sum_list c.*2).
Proof.
  induction c as [|[k' n] c IH]; csimpl; [done |].
  case_decide; csimpl; [done | rewrite IH; lia].
Qed.

Lemma Counter_keys_NoDup xs : NoDup (Counter xs).*1.
Proof.
  induction xs as [|x xs IH] using rev_ind; [constructor |].
  rewrite Counter_snoc, counter_add_keys. case_decide as Hin; [done |].
  apply NoDup_app. split_and!; [done | | apply NoDup_singleton].
  intros k Hk ->%list_elem_of_singleton. done.
Qed.

Lemma Counter_keys xs k : k ∈ (Counter xs).*1 ↔ k ∈ xs.
Proof.
  induction xs as [|x xs IH] using rev_ind; [done |].
  rewrite Counter_snoc, counter_add_keys, elem_of_app, list_elem_of_singleton.
  case_decide as Hin.
  - rewrite IH. split; [by left |]. intros [?| ->]; [done |]. by apply IH.
  - by rewrite elem_of_app, list_elem_of_singleton, IH.
Qed.

Lemma Counter_get xs k : counter_get (Counter xs) k = occurrences k xs.
Proof.
  induction xs as [|x xs IH] using rev_ind; [done |].
  by rewrite Counter_snoc, counter_add_get, occurrences_snoc, IH.
Qed.

Lemma Counter_sum xs : sum_list (Counter xs).*2 = length xs.
Proof.
  induction xs as [|x xs IH] using rev_ind; [done |].
  rewrite Counter_snoc, counter_add_sum, IH, length_app. simpl. lia.
Qed.

(** In a counter without repeated keys, the entries are the keys paired with
    what [counter_get] returns for them. *)
Lemma counter_elem_get (c : counter) k n :
  NoDup c.*1 → (k, n) ∈ c ↔ k ∈ c.*1 ∧ counter_get c k = n.
Proof.
  induction c as [|[k' n'] c IH]; csimpl; intros Hnd.
  - split; [by intros ?%elem_of_nil | by intros [?%elem_of_nil _]].
  - apply NoDup_cons in Hnd as [Hk' Hnd]. rewrite !elem_of_cons, (IH Hnd).
    destruct (decide (k = k')) as [->|Hne].
    + split.
      * intros [[= ->]|[? _]]; [split; [by left | done] | done].
      * intros [_ ->]. by left.
    + split.
      * intros [[= ? ?]|[? ?]]; [done | split; [by right | done]].
      * intros [[?|?] ?]; [done | by right].
Qed.

Lemma Counter_elem tags tag n :
  (tag, n) ∈ Counter tags ↔ n = occurrences tag tags ∧ 1 ≤ n.
Proof.
  rewrite (counter_elem_get _ _ _ (Counter_keys_NoDup tags)).
  rewrite Counter_keys, Counter_get, occurrences_pos. intuition lia.
Qed.

(** ** Stable sorting by descending count *)

Lemma before_cons {A} (a b z : A) l : before a b l → before a b (z :: l).
Proof. intros (l1 & l2 & l3 & ->). by exists (z :: l1), l2, l3. Qed.

Lemma before_head {A} (a b : A) l : b ∈ l → before a b (a :: l).
Proof.
  intros (l2 & l3 & ->)%list_elem_of_split. by exists [], l2, l3.
Qed.

Lemma before_inv {A} (a b z : A) l :
  before a b (z :: l) → (z = a ∧ b ∈ l) ∨ before a b l.
Proof.
  intros ([|z' l1] & l2 & l3 & E); simplify_eq/=.
  - left. split; [done |]. set_solver.
  - right. by exists l1, l2, l3.
Qed.

Lemma before_fmap_inv {A B} (f : A → B) (x y : B) (l : list A) :
  before x y (f <$> l) →
  ∃ a b, f a = x ∧ f b = y ∧ before a b l.
Proof.
  intros (l1 & l2 & l3 & E).
  apply fmap_app_inv in E as (k1 & k & -> & E & ->).
  symmetry in E. apply fmap_cons_inv in E as (a & k' & -> & E & ->).
  symmetry in E. apply fmap_app_inv in E as (k2 & k3 & -> & E & ->).
  symmetry in E. apply fmap_cons_inv in E as (b & k4 & -> & -> & ->).
  exists a, b. split_and!; [done.. |]. by exists k1, k2, k4.
Qed.

Lemma insert_desc_perm x l : insert_desc x l ≡ₚ x :: l.
Proof.
  induction l as [|y l IH]; simpl; [done |].
  case_decide; [done |]. rewrite IH. apply Permutation_swap.
Qed.

Lemma sorted_by_count_desc_perm l : sorted_by_count_desc l ≡ₚ l.
Proof.
  induction l as [|x l IH]; simpl; [done |].
  by rewrite insert_desc_perm, IH.
Qed.

Lemma insert_desc_sorted x l :
  StronglySorted descending l → StronglySorted descending (insert_desc x l).
Proof.
  induction 1 as [|y l Hs IH Hy]; simpl.
  - repeat constructor.
  - case_decide as Hle.
    + constructor; [by constructor |]. constructor; [done |].
      eapply Forall_impl; [exact Hy |]. unfold descending. simpl. lia.
    + constructor; [done |]. rewrite insert_desc_perm.
      constructor; [unfold descending; lia | done].
Qed.

Lemma sorted_by_count_desc_sorted l :
  StronglySorted descending (sorted_by_count_desc l).
Proof.
  induction l as [|x l IH]; simpl; [constructor |].
  by apply insert_desc_sorted.
Qed.

Lemma insert_desc_before a b x l :
  before a b l → before a b (insert_desc x l).
Proof.
  induction l as [|y l IH]; simpl; intros Hb.
  - by apply before_cons.
  - case_decide; [by apply before_cons |].
    apply before_inv in Hb as [[-> Hin]|Hb].
    + apply before_head. rewrite insert_desc_perm. by right.
    + by apply before_cons, IH.
Qed.

(** The inserted item goes in front of the items with the same count. *)
Lemma insert_desc_front x b l :
  b ∈ l → b.2 = x.2 → before x b (insert_desc x l).
Proof.
  induction l as [|y l IH]; simpl; intros Hin Heq.
  - by apply elem_of_nil in Hin.
  - case_decide as Hle; [by apply before_head |].
    apply elem_of_cons in Hin as [->|Hin]; [lia |].
    by apply before_cons, IH.
Qed.

(** Stability: items with equal counts keep their relative order. *)
Lemma sorted_by_count_desc_stable a b l :
  before a b l → a.2 = b.2 → before a b (sorted_by_count_desc l).
Proof.
  induction l as [|z l IH]; simpl; intros Hb Heq.
  - destruct Hb as ([|??] & ? & ? & ?); done.
  - apply before_inv in Hb as [[-> Hin]|Hb].
    + apply insert_desc_front; [by rewrite sorted_by_count_desc_perm | done].
    + by apply insert_desc_before, IH.
Qed.

(** ** Order of first encounter *)

Lemma counter_foldl_keys (l : list string) (c : counter) :
  ∃ new, (foldl (λ c k, counter_add k c) c l).*1 = c.*1 ++ new.
Proof.
  revert c. induction l as [|x l IH]; intros c; simpl.
  - exists []. by rewrite app_nil_r.
  - destruct (IH (counter_add x c)) as [new ->].
    rewrite counter_add_keys. case_decide; [by exists new |].
    exists (x :: new). by rewrite <-app_assoc.
Qed.

Lemma Counter_keys_before t1 t2 tags :
  first_before t1 t2 tags → before t1 t2 (Counter tags).*1.
Proof.
  intros (l1 & l2 & -> & Ht1 & Ht2 & Hne & Hin).
  assert (Hkey : t2 ∈ (Counter (l1 ++ t1 :: l2)).*1).
  { apply Counter_keys. rewrite elem_of_app, elem_of_cons. auto. }
  revert Hkey. unfold Counter. rewrite foldl_app. simpl.
  destruct (counter_foldl_keys l2
    (counter_add t1 (foldl (λ c k, counter_add k c) [] l1))) as [new ->].
  rewrite counter_add_keys. fold (Counter l1).
  rewrite decide_False by (by rewrite Counter_keys).
  rewrite !elem_of_app, list_elem_of_singleton, Counter_keys.
  intros [[?|?]|(n1 & n2 & ->)%list_elem_of_split]; [done.. |].
  exists (Counter l1).*1, n1, n2. by rewrite <-app_assoc.
Qed.

Lemma Counter_before t1 t2 tags :
  first_before t1 t2 tags →
  before (t1, occurrences t1 tags) (t2, occurrences t2 tags) (Counter tags).
Proof.
  intros Hb%Counter_keys_before.
  apply before_fmap_inv in Hb as ([k1 n1] & [k2 n2] & ? & ? & Hb).
  simplify_eq/=. destruct Hb as (c1 & c2 & c3 & E).
  assert (H1 : (t1, n1) ∈ Counter tags) by (rewrite E; set_solver).
  assert (H2 : (t2, n2) ∈ Counter tags) by (rewrite E; set_solver).
  apply Counter_elem in H1 as [-> _]. apply Counter_elem in H2 as [-> _].
  by exists c1, c2, c3.
Qed.

(** ** Sample words *)

Lemma words_tagged_snoc tag pos_tags w t :
  words_tagged tag (pos_tags ++ [(w, t)]) =
  words_tagged tag pos_tags ++ (if decide (t = tag) then [w] else []).
Proof.
  unfold words_tagged. rewrite filter_app, fmap_app. f_equal.
  rewrite filter_cons, filter_nil. simpl. by case_decide.
Qed.

Lemma words_tagged_absent tag pos_tags :
  tag ∉ pos_tags.*2 → words_tagged tag pos_tags = [].
Proof.
  intros Hnin. unfold words_tagged.
  destruct (filter _ pos_tags) as [|p l] eqn:E; [done |].
  assert (Hp : p ∈ filter (λ p, p.2 = tag) pos_tags) by (rewrite E; left).
  apply list_elem_of_filter in Hp as [<- Hp]. destruct Hnin.
  apply list_elem_of_fmap. by exists p.
Qed.

Lemma pos_examples_step_lookup (m : gmap string (list string)) w t tag :
  pos_examples_step m (w, t) !! tag =
  if decide (t = tag)
  then let examples := default [] (m !! tag) in
       Some (if decide (length examples < 5) then examples ++ [w] else examples)
  else m !! tag.
Proof.
  unfold pos_examples_step.
  destruct (decide (t = tag)) as [->|Hne].
  - destruct (m !! tag) as [l|] eqn:E; rewrite ?lookup_insert_eq, ?E; simpl.
    + destruct (decide (length l < 5)); [by rewrite lookup_insert_eq | done].
    + by rewrite lookup_insert_eq.
  - destruct (m !! t) as [l|] eqn:E; rewrite ?lookup_insert_eq, ?E; simpl.
    + case_decide; by rewrite ?lookup_insert_ne by done.
    + by rewrite !lookup_insert_ne by done.
Qed.

Lemma build_pos_examples_lookup pos_tags tag :
  build_pos_examples pos_tags !! tag =
  if decide (tag ∈ pos_tags.*2)
  then Some (take 5 (words_tagged tag pos_tags))
  else None.
Proof.
  induction pos_tags as [|[w t] pos_tags IH] using rev_ind.
  - rewrite decide_False by (by intros ?%elem_of_nil). done.
  - unfold build_pos_examples in *. rewrite foldl_snoc.
    rewrite pos_examples_step_lookup, IH, fmap_app, words_tagged_snoc.
    destruct (decide (t = tag)) as [->|Hne]; simpl.
    + rewrite (decide_True (P := tag ∈ _ ++ _)) by set_solver.
      f_equal. destruct (decide (tag ∈ pos_tags.*2)) as [Hin|Hnin]; simpl.
      * case_decide as Hlen; rewrite length_take in Hlen.
        -- rewrite !take_ge by (rewrite ?length_app; simpl; lia). done.
        -- rewrite take_app_le by lia. done.
      * by rewrite words_tagged_absent.
    + rewrite app_nil_r.
      destruct (decide (tag ∈ pos_tags.*2)) as [Hin|Hnin].
      * rewrite decide_True by (apply elem_of_app; by left). done.
      * rewrite decide_False; [done |].
        rewrite elem_of_app, list_elem_of_singleton. intuition congruence.
Qed.

(** ** Extraction *)

Section Extraction.
Context `{Collaborators}.

Lemma emit_run ev w : emit ev w = (Ok (), logged w [ev]).
Proof. done. Qed.

Lemma try_selectors_none soup sels w :
  Forall (no_match soup) sels →
  try_selectors soup sels w = (Ok "", logged w (select_one_call <$> sels)).
Proof.
  revert w. induction sels as [|s sels IH]; intros [x tr] Hnone.
  - unfold logged. simpl. by rewrite app_nil_r.
  - apply Forall_cons in Hnone as [Hs Hnone]. unfold no_match in Hs.
    cbn [try_selectors]. unfold select_one, emit.
    cbv [mbind M_bind mret M_ret]. rewrite Hs, (IH _ Hnone).
    unfold logged. simpl. by rewrite <-app_assoc.
Qed.

Lemma try_selectors_first soup miss sel rest e w :
  Forall (no_match soup) miss →
  css_select_one soup sel = Some e →
  try_selectors soup (miss ++ sel :: rest) w =
  (Ok (get_text e " " true), logged w (select_one_call <$> miss ++ [sel])).
Proof.
  revert w. induction miss as [|s miss IH]; intros [x tr] Hnone Hsel.
  - cbn [try_selectors app]. unfold select_one, emit.
    cbv [mbind M_bind mret M_ret]. by rewrite Hsel.
  - apply Forall_cons in Hnone as [Hs Hnone]. unfold no_match in Hs.
    cbn [try_selectors app]. unfold select_one, emit.
    cbv [mbind M_bind mret M_ret]. rewrite Hs, (IH _ Hnone Hsel).
    unfold logged. simpl. by rewrite <-app_assoc.
Qed.

Lemma truthy_true s : truthy s = true ↔ s ≠ "".
Proof. by destruct s. Qed.

Lemma truthy_false s : truthy s = false ↔ s = "".
Proof. by destruct s. Qed.

(** [extract_text] when the selector loop ends with a non-empty text. *)
Lemma extract_text_selected soup w text w' :
  try_selectors soup selectors w = (Ok text, w') →
  text ≠ "" →
  extract_text soup w = (Ok text, w').
Proof.
  intros Hloop Htext%truthy_true. unfold extract_text.
  cbv [mbind M_bind]. by rewrite Hloop, Htext.
Qed.

(** [extract_text] when the selector loop ends with the empty text. *)
Lemma extract_text_fallback soup w w' :
  try_selectors soup selectors w = (Ok "", w') →
  extract_text soup w =
  (Ok (paragraph_text soup), logged w' [find_all_call "p"]).
Proof.
  intros Hloop. unfold extract_text. cbv [mbind M_bind]. by rewrite Hloop.
Qed.

(** [fetch_article] once the request has succeeded. *)
Lemma fetch_article_fetched url w resp x text w' :
  http_get url headers 10 (ext w) = (Ok resp, x) →
  raise_for_status resp = Ok () →
  extract_text (cleaned resp)
    (World x (trace w ++ [requests_get_call url 10])) = (Ok text, w') →
  fetch_article url w = (Ok (PyStr text), w').
Proof.
  intros Hget Hstatus Hextract.
  unfold fetch_article, try_except, requests_get, lift_result.
  cbv [mbind M_bind]. rewrite Hget, Hstatus.
  fold (cleaned resp). by rewrite Hextract.
Qed.





Lemma main_empty url w w1 :
  truthy url = true →
  fetch_article url (logged w [st_spinner "Fetching article..."]) =
    (Ok (PyStr ""), w1) →
  main true url w =
  (Ok (), logged w1 [st_error
     "Could not extract text from the article. Please try a different URL."]).
Proof.
  intros Hurl Hfetch. unfold main. rewrite Hurl.
  cbv [mbind M_bind]. by rewrite emit_run, Hfetch.
Qed.

Lemma main_report url w text w1 :
  truthy url = true →
  fetch_article url (logged w [st_spinner "Fetching article..."]) =
    (Ok (PyStr text), w1) →
  truthy text = true →
  main true url w = report text w1.
Proof.
  intros Hurl Hfetch Htext. unfold main. rewrite Hurl.
  cbv [mbind M_bind]. rewrite emit_run, Hfetch. simpl. by rewrite Htext.
Qed.
End Extraction.

(** ** Analysis and report *)

Section Analysis.
Context `{Collaborators}.

Lemma analyze_pos_run text w :
  analyze_pos text w =
  (Ok (tagged_of text (ext w), Counter (tagged_of text (ext w)).*2),
   World (after_nltk text (ext w))
     (trace w ++ [word_tokenize_call text; pos_tag_call (tokens_of text (ext w))])).
Proof.
  unfold analyze_pos, word_tokenize, pos_tag, tagged_of, after_nltk, tokens_of.
  cbv [mbind M_bind mret M_ret].
  destruct (nltk_word_tokenize text (ext w)) as [tokens x1]. simpl.
  destruct (nltk_pos_tag tokens x1) as [tagged x2]. simpl.
  by rewrite <-app_assoc.
Qed.

Lemma for_each_emit {A} (f : A → event) (xs : list A) w :
  for_each xs (λ x, emit (f x)) w = (Ok (), logged w (f <$> xs)).
Proof.
  revert w. induction xs as [|x xs IH]; intros w.
  - unfold logged. simpl. rewrite app_nil_r. by destruct w.
  - cbn [for_each]. cbv [mbind M_bind]. rewrite emit_run, IH.
    unfold logged. simpl. by rewrite <-app_assoc.
Qed.

Lemma most_common_tag_head c tag n rest :
  most_common None c = (tag, n) :: rest → most_common_tag c = Ok tag.
Proof.
  unfold most_common_tag, most_common, list_index. by intros ->.
Qed.

Lemma most_common_tag_empty : most_common_tag [] = Raise IndexError.
Proof. done. Qed.

Lemma most_common_nonempty c :
  c ≠ [] → ∃ tag n rest, most_common None c = (tag, n) :: rest.
Proof.
  intros Hc. simpl. destruct (sorted_by_count_desc c) as [|[tag n] rest] eqn:E.
  - pose proof (sorted_by_count_desc_perm c) as Hp. rewrite E in Hp.
    by apply Permutation_nil_l in Hp.
  - by exists tag, n, rest.
Qed.

Lemma Counter_nonempty tags : tags ≠ [] → Counter tags ≠ [].
Proof.
  intros Htags Hc. pose proof (Counter_sum tags) as Hsum.
  rewrite Hc in Hsum. by destruct tags.
Qed.

Lemma report_run text w :
  let pos_tags := tagged_of text (ext w) in
  let pos_counts := Counter pos_tags.*2 in
  let w1 := World (after_nltk text (ext w))
              (trace w ++ report_prefix text (tokens_of text (ext w)) pos_tags) in
  report text w =
  match most_common_tag pos_counts with
  | Raise e => (Raise e, w1)
  | Ok top =>
      match set_index_count (take 10 (dataframe pos_counts)) with
      | Raise e =>
          (Raise e,
           logged w1 [st_metric "Most Common Tag" (PyStr top);
                      st_dataframe (dataframe pos_counts);
                      st_subheader "📈 Top 10 Most Frequent POS Tags"])
      | Ok chart =>
          show_samples pos_tags pos_counts
            (logged w1 [st_metric "Most Common Tag" (PyStr top);
                        st_dataframe (dataframe pos_counts);
                        st_subheader "📈 Top 10 Most Frequent POS Tags";
                        st_bar_chart chart])
      end
  end.
Proof.
  intros pos_tags pos_counts w1. unfold report.
  cbv [mbind M_bind]. rewrite !emit_run, analyze_pos_run.
  fold pos_tags pos_counts. rewrite !emit_run. unfold lift_result.
  destruct w as [x tr]. unfold logged, w1, report_prefix. simpl.
  rewrite <-!app_assoc. simpl.
  subst pos_tags pos_counts. simpl.
  destruct (most_common_tag _) as [top|e]; [| done].
  destruct (set_index_count _) as [chart|e]; by rewrite <-!app_assoc.
Qed.
End Analysis.

Section ExtractionClaims.
Context `{Collaborators}.

(** C2, as amended.  Once the page is fetched, the selectors are tried on
    the cleaned tree in the order of [selectors] and the loop stops at the
    first one that finds an element: with both an "article" element and an
    element of class "article-content" in the tree, only "article" is
    queried, and the text of that element is returned whenever it is not
    empty.  In general, when [sel] is the first selector that matches, the
    queries made are exactly those up to [sel]; the text of its element is
    returned if it is non-empty and the paragraph fallback otherwise. *)
Theorem selector_priority url w resp x :
  http_get url headers 10 (ext w) = (Ok resp, x) →
  raise_for_status resp = Ok () →
  let soup := cleaned resp in
  let w0 := World x (trace w ++ [requests_get_call url 10]) in
  (∀ a b,
     css_select_one soup "article" = Some a →
     css_select_one soup ".article-content" = Some b →
     get_text a " " true ≠ "" →
     fetch_article url w =
     (Ok (PyStr (get_text a " " true)), logged w0 [select_one_call "article"]))
  ∧
  (∀ miss sel rest e,
     selectors = miss ++ sel :: rest →
     Forall (no_match soup) miss →
     css_select_one soup sel = Some e →
     let text := get_text e " " true in
     let queries := select_one_call <$> miss ++ [sel] in
     fetch_article url w =
     if truthy text
     then (Ok (PyStr text), logged w0 queries)
     else (Ok (PyStr (paragraph_text soup)),
           logged w0 (queries ++ [find_all_call "p"]))).
Proof.
  intros Hget Hstatus soup w0.
  assert (Hgen : ∀ miss sel rest e,
     selectors = miss ++ sel :: rest →
     Forall (no_match soup) miss →
     css_select_one soup sel = Some e →
     fetch_article url w =
     if truthy (get_text e " " true)
     then (Ok (PyStr (get_text e " " true)),
           logged w0 (select_one_call <$> miss ++ [sel]))
     else (Ok (PyStr (paragraph_text soup)),
           logged w0 ((select_one_call <$> miss ++ [sel]) ++ [find_all_call "p"]))).
  { intros miss sel rest e Hsels Hmiss Hsel.
    pose proof (try_selectors_first soup miss sel rest e w0 Hmiss Hsel) as Hloop.
    rewrite <-Hsels in Hloop.
    destruct (truthy (get_text e " " true)) eqn:Htext;
      apply (fetch_article_fetched _ _ _ _ _ _ Hget Hstatus);
      change (cleaned resp) with soup;
      change (World x (trace w ++ [requests_get_call url 10])) with w0.
    - apply extract_text_selected; [done | by apply truthy_true].
    - apply truthy_false in Htext. rewrite Htext in Hloop.
      rewrite (extract_text_fallback _ _ _ Hloop). unfold logged. simpl.
      by rewrite <-app_assoc. }
  split; [| exact Hgen].
  intros a b Ha _ Htext%truthy_true.
  specialize (Hgen [] "article" (tail selectors) a eq_refl (Forall_nil_2 _) Ha).
  by rewrite Htext in Hgen.
Qed.


(** C4.  With no matching selector and no paragraph element,
    [fetch_article] returns the empty string, a value that is not the
    failure tuple; it is [main] that tests the text and reports that nothing
    could be extracted, without analysing anything. *)
Theorem empty_extraction_is_success url w resp x :
  truthy url = true →
  http_get url headers 10 (ext w) = (Ok resp, x) →
  raise_for_status resp = Ok () →
  Forall (no_match (cleaned resp)) selectors →
  tags_named (cleaned resp) "p" = [] →
  let queries := (select_one_call <$> selectors) ++ [find_all_call "p"] in
  fetch_article url w =
    (Ok (PyStr ""),
     World x (trace w ++ [requests_get_call url 10] ++ queries)) ∧
  isinstance_tuple (PyStr "") = false ∧
  main true url w =
    (Ok (),
     World x (trace w ++ [st_spinner "Fetching article..."; requests_get_call url 10]
                ++ queries ++
                [st_error "Could not extract text from the article. Please try a different URL."])).
Proof.
  intros Hurl Hget Hstatus Hnone Hp queries.
  assert (Hfetch : ∀ w, http_get url headers 10 (ext w) = (Ok resp, x) →
    fetch_article url w =
    (Ok (PyStr ""), World x (trace w ++ [requests_get_call url 10] ++ queries))).
  { intros w1 Hget1.
    pose proof (try_selectors_none _ _
      (World x (trace w1 ++ [requests_get_call url 10])) Hnone) as Hloop.
    apply (fetch_article_fetched _ _ _ _ _ _ Hget1 Hstatus).
    rewrite (extract_text_fallback _ _ _ Hloop).
    unfold paragraph_text, logged. rewrite Hp. simpl.
    unfold queries. by rewrite <-!app_assoc. }
  split_and!; [by apply Hfetch | done |].
  rewrite (main_empty url w _ Hurl
             (Hfetch (logged w [st_spinner "Fetching article..."]) Hget)).
  unfold logged. simpl. f_equal. f_equal.
  rewrite <-!app_assoc. done.
Qed.


End ExtractionClaims.

(** C6.  The ranking [pos_counts.most_common()] lists exactly the entries of
    the counter, in descending order of count, and of two tags with the same
    count the one first encountered in the tagged sequence comes first.  The
    table shown is this ranking with the descriptions filled in. *)
Theorem most_common_ranking (pos_tags : list (string * string)) :
  let tags := pos_tags.*2 in
  let ranked := most_common None (Counter tags) in
  ranked ≡ₚ Counter tags ∧
  StronglySorted (λ a b, b.2 ≤ a.2) ranked ∧
  (∀ t1 t2,
     first_before t1 t2 tags →
     occurrences t1 tags = occurrences t2 tags →
     before (t1, occurrences t1 tags) (t2, occurrences t2 tags) ranked) ∧
  dataframe (Counter tags) =
    (λ item, DfRow item.1 (describe item.1) item.2) <$> ranked.
Proof.
  intros tags ranked. split_and!.
  - apply sorted_by_count_desc_perm.
  - apply sorted_by_count_desc_sorted.
  - intros t1 t2 Hfirst Heq.
    apply sorted_by_count_desc_stable; [by apply Counter_before | done].
  - unfold dataframe. apply list_fmap_ext. by intros _ [tag n] _.
Qed.

Section AnalysisClaims.
Context `{Collaborators}.

(** C1.  [analyze_pos] returns the tagged sequence together with a counter
    that is derived from it exactly: the counts add up to the number of
    pairs, which is the number of tokens when the tagger returns one pair
    per token; every tag has one entry; an entry [(tag, n)] is in the
    counter exactly when [n] is the number of pairs tagged [tag] and is at
    least 1, so every tag of the counter is the tag of some pair, every tag
    of a pair is in the counter, and no count is 0. *)
Theorem tag_frequency_exact text w :
  let tokens := tokens_of text (ext w) in
  let pos_tags := tagged_of text (ext w) in
  length pos_tags = length tokens →
  ∃ pos_counts w',
    analyze_pos text w = (Ok (pos_tags, pos_counts), w') ∧
    sum_list pos_counts.*2 = length pos_tags ∧
    sum_list pos_counts.*2 = length tokens ∧
    NoDup pos_counts.*1 ∧
    (∀ tag n, (tag, n) ∈ pos_counts ↔
              n = occurrences tag pos_tags.*2 ∧ 1 ≤ n) ∧
    (∀ tag n, (tag, n) ∈ pos_counts → ∃ word, (word, tag) ∈ pos_tags) ∧
    (∀ word tag, (word, tag) ∈ pos_tags →
                 ∃ n, (tag, n) ∈ pos_counts ∧ 1 ≤ n).
Proof.
  intros tokens pos_tags Hlen.
  exists (Counter pos_tags.*2). eexists. split; [apply analyze_pos_run |].
  split_and!.
  - by rewrite Counter_sum, length_fmap.
  - by rewrite Counter_sum, length_fmap.
  - apply Counter_keys_NoDup.
  - intros tag n. apply Counter_elem.
  - intros tag n [-> Hn]%Counter_elem.
    assert (Hin : tag ∈ pos_tags.*2) by (by apply occurrences_pos).
    apply list_elem_of_fmap in Hin as ([word tag'] & -> & Hin). by exists word.
  - intros word tag Hin. exists (occurrences tag pos_tags.*2).
    assert (1 ≤ occurrences tag pos_tags.*2).
    { apply occurrences_pos, list_elem_of_fmap. by exists (word, tag). }
    split; [by apply Counter_elem | done].
Qed.



(** C9.  The lookup of the most common tag indexes the first element of
    [most_common(1)].  For a text that passes the truth test of [main] but
    yields no token, the list is empty and [main] stops with [IndexError]
    right after the first two metrics; when there is at least one token the
    lookup returns the first tag of the ranking and [main] completes. *)
Theorem most_common_tag_precondition url w text w1 :
  truthy url = true →
  fetch_article url (logged w [st_spinner "Fetching article..."]) =
    (Ok (PyStr text), w1) →
  truthy text = true →
  let tokens := tokens_of text (ext w1) in
  let pos_tags := tagged_of text (ext w1) in
  length pos_tags = length tokens →
  (tokens = [] →
     most_common_tag (Counter pos_tags.*2) = Raise IndexError ∧
     main true url w =
     (Raise IndexError,
      World (after_nltk text (ext w1))
        (trace w1 ++ report_prefix text [] []))) ∧
  (tokens ≠ [] →
     ∃ tag n rest w',
       most_common None (Counter pos_tags.*2) = (tag, n) :: rest ∧
       most_common_tag (Counter pos_tags.*2) = Ok tag ∧
       main true url w = (Ok (), w')).
Proof.
  intros Hurl Hfetch Htext tokens pos_tags Hlen.
  rewrite (main_report url w text w1 Hurl Hfetch Htext), report_run.
  fold tokens pos_tags. split.
  - intros Htokens. rewrite Htokens in *.
    apply nil_length_inv in Hlen. rewrite Hlen. done.
  - intros Htokens.
    assert (Hne : pos_tags.*2 ≠ []).
    { intros Hnil%fmap_nil_inv. rewrite Hnil in Hlen. by destruct tokens. }
    destruct (most_common_nonempty _ (Counter_nonempty _ Hne))
      as (tag & n & rest & Hranked).
    rewrite (most_common_tag_head _ _ _ _ Hranked).
    assert (Hdf : ∃ chart, set_index_count
              (take 10 (dataframe (Counter pos_tags.*2))) = Ok chart).
    { unfold dataframe. rewrite Hranked. simpl. eauto. }
    destruct Hdf as [chart ->].
    unfold show_samples. cbv [mbind M_bind]. rewrite emit_run.
    rewrite (for_each_emit (λ tag, st_write (sample_line _ tag))).
    by eexists tag, n, rest, _.
Qed.
End AnalysisClaims.

(** ** The table, the chart and the metrics *)

Lemma before_elem {A} (a b : A) l : before a b l → a ∈ l ∧ b ∈ l.
Proof.
  intros (l1 & l2 & l3 & ->). split.
  - apply elem_of_app. right. left.
  - apply elem_of_app. right. right. apply elem_of_app. right. left.
Qed.

Lemma before_not_both {A} (a b : A) l :
  NoDup l → before a b l → before b a l → False.
Proof.
  induction l as [|z l IH]; intros Hnd Hab Hba.
  - destruct Hab as ([|??] & ? & ? & ?); done.
  - apply NoDup_cons in Hnd as [Hz Hnd].
    apply before_inv in Hab as [[-> Hb]|Hab], Hba as [[-> Ha]|Hba]; [done | | |].
    + by destruct Hz, (before_elem _ _ _ Hba).
    + by destruct Hz, (before_elem _ _ _ Hab).
    + by apply IH.
Qed.

(** X7.  The ranking is fixed by what it has to satisfy, not by the sorting
    method: a list with the same items, in descending order of count, that
    keeps items of equal count in the order they have in [c], is
    [most_common()]. *)
Theorem most_common_unique (c l : list (string * nat)) :
  NoDup c →
  l ≡ₚ c →
  StronglySorted descending l →
  (∀ a b, a.2 = b.2 → before a b c → before a b l) →
  l = most_common None c.
Proof.
  intros Hnd Hperm Hsorted Hstable. simpl.
  assert (Hagree : ∀ a b, a.2 = b.2 →
            before a b l → before a b (sorted_by_count_desc c)).
  { intros a b Heq Hab. destruct (before_elem _ _ _ Hab) as [Ha Hb].
    rewrite Hperm in Ha, Hb.
    assert (Hne : a ≠ b).
    { intros ->. eapply (before_not_both b b l); [by rewrite Hperm | done..]. }
    assert (before a b c ∨ before b a c) as [Hc|Hc].
    { apply list_elem_of_split in Ha as (l1 & l2 & ->).
      apply elem_of_app in Hb as [Hb|Hb].
      - right. apply list_elem_of_split in Hb as (k1 & k2 & ->).
        exists k1, k2, l2. by rewrite <-app_assoc.
      - apply elem_of_cons in Hb as [->|Hb]; [done |]. left.
        apply list_elem_of_split in Hb as (k1 & k2 & ->). by exists l1, k1, k2. }
    - by apply sorted_by_count_desc_stable.
    - exfalso. eapply (before_not_both a b l); [by rewrite Hperm | done |].
      by apply Hstable. }
  assert (Hnd2 : NoDup (sorted_by_count_desc c))
    by (by rewrite sorted_by_count_desc_perm).
  assert (Hperm2 : l ≡ₚ sorted_by_count_desc c)
    by (by rewrite sorted_by_count_desc_perm).
  pose proof (sorted_by_count_desc_sorted c) as Hsorted2.
  clear Hstable Hperm Hnd.
  revert Hperm2 Hsorted Hsorted2 Hnd2 Hagree.
  generalize (sorted_by_count_desc c). clear c. intros l2.
  revert l2. induction l as [|a l IH]; intros l2 Hperm Hs1 Hs2 Hnd Hagree.
  - by apply Permutation_nil_l in Hperm.
  - assert (Ha : a ∈ l2) by (rewrite <-Hperm; left).
    apply list_elem_of_split in Ha as (p & s & ->).
    assert (Hnd1 : NoDup (a :: l)) by (by rewrite Hperm).
    apply NoDup_cons in Hnd1 as [Hal Hndl].
    destruct p as [|b p].
    + simpl in *. f_equal. apply NoDup_cons in Hnd as [_ Hnd].
      apply StronglySorted_inv in Hs1 as [Hs1 _].
      apply StronglySorted_inv in Hs2 as [Hs2 _].
      apply IH; [by apply (inj (cons a)) | done.. |].
      intros x y Heq Hxy.
      assert (Hb : before x y (a :: s)) by (by apply Hagree, before_cons).
      apply before_inv in Hb as [[-> _]|Hb]; [| done].
      destruct Hal. by apply (before_elem x y l).
    + exfalso. simpl in *.
      assert (Hba : before b a (b :: p ++ a :: s)).
      { apply before_head, elem_of_app. right. left. }
      assert (Hne : a ≠ b).
      { intros ->. apply NoDup_cons in Hnd as [Hb _]. destruct Hb.
        apply elem_of_app. right. left. }
      assert (Hbl : b ∈ l).
      { assert (Hb : b ∈ a :: l) by (rewrite Hperm; left).
        apply elem_of_cons in Hb as [->|Hb]; done. }
      apply StronglySorted_inv in Hs1 as [_ Hs1].
      apply StronglySorted_inv in Hs2 as [_ Hs2].
      rewrite Forall_forall in Hs1. rewrite Forall_forall in Hs2.
      assert (Heq : a.2 = b.2).
      { apply Nat.le_antisymm.
        - apply (Hs2 a), elem_of_app. right. left.
        - by apply (Hs1 b). }
      eapply (before_not_both a b (b :: p ++ a :: s)); [done | | done].
      apply Hagree; [done |]. by apply before_head.
Qed.

Lemma dataframe_counts c :
  Count <$> dataframe c = (most_common None c).*2.
Proof.
  unfold dataframe. rewrite <-list_fmap_compose.
  apply list_fmap_ext. by intros _ [tag n] _.
Qed.

Lemma dataframe_tags c :
  POS_Tag <$> dataframe c = (most_common None c).*1.
Proof.
  unfold dataframe. rewrite <-list_fmap_compose.
  apply list_fmap_ext. by intros _ [tag n] _.
Qed.

(** X4.  The table agrees with the two count metrics.  Its [Count] column adds
    up to the number of tagged tokens ("Total Words"), it has one row for
    each distinct tag ("Unique POS Tags"), no tag has two rows, and every
    row carries the number of occurrences of its tag, which is at least 1,
    and the description of its tag. *)
Theorem table_totals (pos_tags : list (string * string)) :
  let tags := pos_tags.*2 in
  let pos_counts := Counter tags in
  let df := dataframe pos_counts in
  sum_list (Count <$> df) = length pos_tags ∧
  length df = length pos_counts ∧
  length pos_counts = size (list_to_set tags : gset string) ∧
  NoDup (POS_Tag <$> df) ∧
  Forall (λ row, Count row = occurrences (POS_Tag row) tags ∧
                 1 ≤ Count row ∧
                 Description row = describe (POS_Tag row)) df.
Proof.
  intros tags pos_counts df. subst df.
  pose proof (sorted_by_count_desc_perm pos_counts) as Hperm.
  split_and!.
  - rewrite dataframe_counts. simpl. rewrite Hperm.
    unfold pos_counts, tags. by rewrite Counter_sum, length_fmap.
  - unfold dataframe. rewrite length_fmap. simpl. by rewrite Hperm.
  - rewrite <-(length_fmap fst pos_counts).
    rewrite <-(size_list_to_set (C := gset string)) by apply Counter_keys_NoDup.
    f_equal. apply set_eq. intros t.
    rewrite !elem_of_list_to_set. unfold pos_counts. apply Counter_keys.
  - rewrite dataframe_tags. simpl. rewrite Hperm. apply Counter_keys_NoDup.
  - unfold dataframe. apply Forall_fmap, Forall_forall. intros [tag n] Hin.
    simpl in Hin. rewrite Hperm in Hin. unfold pos_counts in Hin.
    apply Counter_elem in Hin as [-> ?]. done.
Qed.

(** X5.  The chart shows the first ten rows of the table, which are the ten
    entries of [most_common(10)] the sample lines are written for: at most
    ten bars, all of them when there are no more than ten distinct tags.
    Only the frame built from an empty counter has no column to index. *)
Theorem chart_is_top_ten (pos_counts : counter) :
  match set_index_count (take 10 (dataframe pos_counts)) with
  | Ok chart =>
      pos_counts ≠ [] ∧
      chart = most_common (Some 10) pos_counts ∧
      length chart = length pos_counts `min` 10 ∧
      (length pos_counts ≤ 10 → chart ≡ₚ pos_counts)
  | Raise e => pos_counts = [] ∧ exc_class e = "KeyError"
  end.
Proof.
  pose proof (sorted_by_count_desc_perm pos_counts) as Hperm.
  assert (Hmap : (λ r, (POS_Tag r, Count r)) <$> take 10 (dataframe pos_counts)
                 = most_common (Some 10) pos_counts).
  { unfold dataframe. simpl. rewrite <-fmap_take, <-list_fmap_compose.
    etrans; [| apply list_fmap_id].
    apply list_fmap_ext. by intros _ [tag n] _. }
  assert (Hlen : length (take 10 (dataframe pos_counts)) =
                 length pos_counts `min` 10).
  { unfold dataframe, most_common. rewrite length_take, length_fmap.
    rewrite (Permutation_length Hperm). lia. }
  unfold set_index_count.
  destruct (take 10 (dataframe pos_counts)) as [|row rows] eqn:E.
  - split; [| done]. destruct pos_counts; [done | simpl in Hlen; lia].
  - rewrite Hmap. split_and!.
    + intros ->. done.
    + done.
    + unfold most_common. rewrite length_take, (Permutation_length Hperm). lia.
    + intros Hle. unfold most_common.
      rewrite take_ge by (rewrite (Permutation_length Hperm); lia). done.
Qed.

Lemma first_before_total (t1 t2 : string) tags :
  t1 ∈ tags → t2 ∈ tags → t1 ≠ t2 →
  first_before t1 t2 tags ∨ first_before t2 t1 tags.
Proof.
  intros (l1 & l2 & -> & Hl1)%list_elem_of_split_l H2 Hne.
  destruct (decide (t2 ∈ l1)) as [Hin|Hnin].
  - right. apply list_elem_of_split_l in Hin as (k1 & k2 & -> & Hk1).
    exists k1, (k2 ++ t1 :: l2). split_and!.
    + by rewrite <-app_assoc.
    + done.
    + intros ?. apply Hl1, elem_of_app. by left.
    + done.
    + apply elem_of_app. right. left.
  - left. exists l1, l2. split_and!; [done.. | by auto |].
    apply elem_of_app in H2 as [?|H2]; [done |].
    by apply elem_of_cons in H2 as [->|?].
Qed.

(** X6.  The tag shown as "Most Common Tag" occurs at least as often as every
    other tag, and it is the first encountered of the tags that occur as
    often as it does. *)
Theorem most_common_tag_maximal (tags : list string) (top : string) :
  most_common_tag (Counter tags) = Ok top →
  top ∈ tags ∧
  (∀ t, occurrences t tags ≤ occurrences top tags) ∧
  (∀ t, t ≠ top →
        occurrences t tags = occurrences top tags →
        t ∈ tags → first_before top t tags).
Proof.
  unfold most_common_tag, most_common, list_index.
  intros Htop.
  pose proof (sorted_by_count_desc_perm (Counter tags)) as Hperm.
  pose proof (sorted_by_count_desc_sorted (Counter tags)) as Hsorted.
  destruct (sorted_by_count_desc (Counter tags)) as [|[t0 n0] rest] eqn:E;
    [done |].
  simpl in Htop. injection Htop as ->.
  assert (Hhead : (top, n0) ∈ Counter tags) by (rewrite <-Hperm; left).
  apply Counter_elem in Hhead as [-> Hpos].
  assert (Hin : top ∈ tags) by (by apply occurrences_pos).
  assert (Hmax : ∀ t, t ∈ tags → occurrences t tags ≤ occurrences top tags).
  { intros t Ht.
    assert (Hentry : (t, occurrences t tags) ∈ Counter tags).
    { apply Counter_elem. split; [done | by apply occurrences_pos]. }
    rewrite <-Hperm in Hentry. apply elem_of_cons in Hentry as [[= -> _]|Hentry];
      [done |].
    apply StronglySorted_inv in Hsorted as [_ Hall].
    rewrite Forall_forall in Hall. apply (Hall _ Hentry). }
  split_and!; [done | |].
  - intros t. destruct (decide (t ∈ tags)) as [Ht|Ht]; [by apply Hmax |].
    destruct (occurrences t tags) eqn:Hocc; [lia |].
    destruct Ht. apply occurrences_pos. lia.
  - intros t Hne Heq Ht.
    destruct (first_before_total top t tags) as [?|Hwrong]; [done.. |].
    exfalso.
    pose proof (sorted_by_count_desc_stable _ _ _
                  (Counter_before _ _ _ Hwrong) Heq) as Hb.
    rewrite E in Hb. apply before_inv in Hb as [[[= ? _] _]|Hb]; [done |].
    destruct (before_elem _ _ _ Hb) as [_ Hdup].
    assert (Hnd : NoDup ((top, occurrences top tags) :: rest)).
    { rewrite Hperm. eapply NoDup_fmap_1, Counter_keys_NoDup. }
    apply NoDup_cons in Hnd as [Hnd _]. done.
Qed.

(** X8.  The preview [article_text[:n]] is the text itself when it has at
    most [n] characters and its first [n] characters otherwise; with the
    three dots that are always appended, the preview of an article has
    at most 503 characters. *)
Theorem preview_bounds (n : nat) (article_text : string) :
  String.length (slice_to n article_text) = String.length article_text `min` n ∧
  String.prefix (slice_to n article_text) article_text = true ∧
  (String.length article_text ≤ n → slice_to n article_text = article_text) ∧
  String.length (slice_to n article_text +:+ "...") =
    String.length article_text `min` n + 3.
Proof.
  assert (Hlen : ∀ s n, String.length (slice_to n s) = String.length s `min` n).
  { unfold slice_to. induction s as [|c s IH]; intros [|m]; simpl; try done.
    by rewrite IH. }
  assert (Happ : ∀ s t, String.length (s +:+ t) = String.length s + String.length t).
  { induction s as [|c s IH]; intros t; simpl; [done | by rewrite IH]. }
  split_and!.
  - apply Hlen.
  - unfold slice_to. revert n.
    induction article_text as [|c s IH]; intros [|m]; simpl; try done.
    rewrite IH. by destruct (Ascii.ascii_dec c c).
  - unfold slice_to. revert n.
    induction article_text as [|c s IH]; intros [|m]; simpl; try done; [lia |].
    intros Hle. rewrite IH; [done | lia].
  - by rewrite Happ, Hlen.
Qed.

(** X9.  [pos_examples] only grows by appending: the words recorded for a tag
    after some part of the tagged sequence are still there, in the same
    places, after the rest of it, and a list never gets longer than five. *)
Theorem pos_examples_grow (seen later : list (string * string)) tag ws :
  build_pos_examples seen !! tag = Some ws →
  ∃ ws',
    build_pos_examples (seen ++ later) !! tag = Some ws' ∧
    ws `prefix_of` ws' ∧
    1 ≤ length ws' ≤ 5 ∧
    (length ws = 5 → ws' = ws).
Proof.
  rewrite !build_pos_examples_lookup. intros Hseen.
  destruct (decide (tag ∈ seen.*2)) as [Hin|]; [| done].
  injection Hseen as <-.
  rewrite decide_True by (rewrite fmap_app; apply elem_of_app; by left).
  eexists. split; [done |].
  assert (Happ : words_tagged tag (seen ++ later) =
                 words_tagged tag seen ++ words_tagged tag later).
  { unfold words_tagged. by rewrite filter_app, fmap_app. }
  assert (Hne : 1 ≤ length (words_tagged tag seen)).
  { unfold words_tagged. rewrite length_fmap.
    apply list_elem_of_fmap in Hin as ([w t] & -> & Hin).
    assert (Hf : (w, t) ∈ filter (λ p, p.2 = t) seen)
      by (by apply list_elem_of_filter).
    destruct (filter _ seen); [by apply elem_of_nil in Hf | simpl; lia]. }
  rewrite Happ. split_and!.
  - destruct (decide (5 ≤ length (words_tagged tag seen))).
    + by rewrite take_app_le by lia.
    + rewrite (take_ge (words_tagged tag seen)) by lia.
      rewrite take_app_ge by lia. by apply prefix_app_r.
  - rewrite length_take, length_app. lia.
  - rewrite length_take. lia.
  - rewrite length_take. intros Hlen.
    rewrite take_app_le by lia. done.
Qed.

(** ** Whole runs *)

Section Runs.
Context `{Collaborators}.












End Runs.

(** ** Downloading the NLTK data *)

Section DownloadProperties.
Context `{NltkData}.

Lemma downloads_run d tr c d' :
  downloaded_all packages d = Some d' →
  download_packages (DataWorld d tr c) =
  (Ok (), DataWorld d' (tr ++ (download_call <$> packages)) c).
Proof.
  intros Hall. unfold download_packages.
  cbv [mbind N_bind mret N_ret download]. simpl in *.
  destruct (nltk_download "punkt" d) as [[b1|?] d1]; [simpl | done].
  destruct (nltk_download "punkt_tab" d1) as [[b2|?] d2]; [simpl | done].
  destruct (nltk_download "averaged_perceptron_tagger" d2) as [[b3|?] d3];
    [simpl | done].
  simplify_eq. by rewrite <-!app_assoc.
Qed.

(** The [try] block: it stops at the first lookup that raises. *)
Lemma lookups_run d tr c :
  ∃ looked d',
    looked `prefix_of` resources ∧
    (lookup_resources (DataWorld d tr c)).2 =
      DataWorld d' (tr ++ (data_find_call <$> looked)) c ∧
    match (lookup_resources (DataWorld d tr c)).1 with
    | Ok _ => looked = resources ∧ found_all resources d = Some d'
    | Raise e =>
        found_all resources d = None ∧
        ∃ present missing rest d1,
          resources = present ++ missing :: rest ∧
          looked = present ++ [missing] ∧
          found_all present d = Some d1 ∧
          nltk_data_find missing d1 = (Raise e, d')
    end.
Proof.
  unfold lookup_resources, resources.
  cbv [mbind N_bind data_find]. simpl.
  destruct (nltk_data_find "tokenizers/punkt" d) as [[[]|e1] d1] eqn:E1; simpl.
  2: { exists ["tokenizers/punkt"], d1. split_and!; [by eexists | done.. |].
       by eexists [], "tokenizers/punkt", _, d. }
  destruct (nltk_data_find "tokenizers/punkt_tab" d1) as [[[]|e2] d2] eqn:E2;
    simpl.
  2: { exists ["tokenizers/punkt"; "tokenizers/punkt_tab"], d2.
       split_and!; [by eexists | by rewrite <-app_assoc | done |].
       eexists ["tokenizers/punkt"], "tokenizers/punkt_tab", _, d1.
       simpl. by rewrite E1. }
  destruct (nltk_data_find "taggers/averaged_perceptron_tagger" d2)
    as [[[]|e3] d3] eqn:E3; simpl.
  2: { eexists _, d3. split_and!; [done | by rewrite <-!app_assoc | done |].
       exists ["tokenizers/punkt"; "tokenizers/punkt_tab"],
         "taggers/averaged_perceptron_tagger", [], d2.
       simpl. by rewrite E1, E2. }
  eexists _, d3. split_and!; [done | by rewrite <-!app_assoc | done..].
Qed.

Lemma found_all_app rs1 rs2 d :
  found_all (rs1 ++ rs2) d = found_all rs1 d ≫= found_all rs2.
Proof.
  revert d. induction rs1 as [|r rs1 IH]; intros d; simpl; [done |].
  destruct (nltk_data_find r d) as [[[]|?] d']; [apply IH | done].
Qed.

Lemma first_missing_unique present missing rest present' missing' rest'
    d d1 d2 d1' d2' e e' :
  present ++ missing :: rest = present' ++ missing' :: rest' →
  found_all present d = Some d1 →
  nltk_data_find missing d1 = (Raise e, d2) →
  found_all present' d = Some d1' →
  nltk_data_find missing' d1' = (Raise e', d2') →
  present' = present ∧ d1' = d1.
Proof.
  revert present' d.
  induction present as [|r present IH]; intros [|r' present'] d Heq Hf Hm Hf' Hm';
    simpl in *.
  - by simplify_eq.
  - injection Heq as -> _. simplify_eq. by rewrite Hm in Hf'.
  - injection Heq as -> _. simplify_eq. by rewrite Hm' in Hf.
  - injection Heq as -> Heq.
    destruct (nltk_data_find r' d) as [[[]|?] d0]; [| done].
    by destruct (IH _ _ Heq Hf Hm Hf' Hm') as [-> ->].
Qed.

(** X11.  A lookup that raises [LookupError] makes [download_nltk_data] skip
    the lookups that remain and download all three packages in order, also
    those whose lookup had succeeded; the result is then cached. *)
Theorem download_on_missing w present missing rest e d1 d2 d3 :
  cached w = false →
  resources = present ++ missing :: rest →
  found_all present (data w) = Some d1 →
  nltk_data_find missing d1 = (Raise e, d2) →
  isinstance_LookupError e = true →
  downloaded_all packages d2 = Some d3 →
  download_nltk_data w =
  (Ok (),
   DataWorld d3
     (data_trace w ++ (data_find_call <$> present ++ [missing])
        ++ (download_call <$> packages))
     true).
Proof.
  intros Hc Hres Hfound Hmiss He Hdown. destruct w as [d tr c].
  cbn [data cached data_trace] in *. subst c.
  unfold download_nltk_data, cache_resource, download_nltk_data_body,
    try_except_LookupError. cbn [data cached data_trace].
  destruct (lookups_run d tr false) as (looked & d' & _ & Hw & Hr).
  destruct (lookup_resources (DataWorld d tr false)) as [[[]|e'] w'];
    cbn [fst snd] in *; subst w'.
  - destruct Hr as [_ Hall]. rewrite Hres, found_all_app, Hfound in Hall.
    simpl in Hall. by rewrite Hmiss in Hall.
  - destruct Hr as (_ & present' & missing' & rest' & d1' & Hres' & -> & Hf' & Hm').
    destruct (first_missing_unique _ _ _ _ _ _ _ _ _ _ _ _ _
                (eq_trans (eq_sym Hres) Hres') Hfound Hmiss Hf' Hm')
      as [-> ->].
    assert (missing' = missing) as ->.
    { rewrite Hres in Hres'. by apply app_inv_head in Hres' as [= -> _]. }
    rewrite Hmiss in Hm'. simplify_eq. rewrite He.
    rewrite (downloads_run _ _ _ _ Hdown). simpl. by rewrite <-!app_assoc.
Qed.

(** X10.  When all three resources are found nothing is downloaded: the only
    calls are the three lookups, and the result is cached. *)
Theorem download_skipped_when_present w d' :
  cached w = false →
  found_all resources (data w) = Some d' →
  download_nltk_data w =
  (Ok (), DataWorld d' (data_trace w ++ (data_find_call <$> resources)) true).
Proof.
  intros Hc Hall. destruct w as [d tr c].
  cbn [data cached data_trace] in *. subst c.
  unfold download_nltk_data, cache_resource, download_nltk_data_body,
    try_except_LookupError. cbn [data cached data_trace].
  destruct (lookups_run d tr false) as (looked & d1 & _ & Hw & Hr).
  destruct (lookup_resources (DataWorld d tr false)) as [[[]|e'] w'];
    cbn [fst snd] in *; subst w'.
  - destruct Hr as [-> Hall']. rewrite Hall in Hall'. by simplify_eq.
  - destruct Hr as [Hnone _]. by rewrite Hall in Hnone.
Qed.

(** X12.  A lookup that raises an exception other than [LookupError] ends
    [download_nltk_data] with that exception: the lookups that remain are
    skipped, nothing is downloaded and nothing is cached. *)
Theorem download_other_exception w present missing rest e d1 d2 :
  cached w = false →
  resources = present ++ missing :: rest →
  found_all present (data w) = Some d1 →
  nltk_data_find missing d1 = (Raise e, d2) →
  isinstance_LookupError e = false →
  download_nltk_data w =
  (Raise e,
   DataWorld d2 (data_trace w ++ (data_find_call <$> present ++ [missing]))
     false).
Proof.
  intros Hc Hres Hfound Hmiss He. destruct w as [d tr c].
  cbn [data cached data_trace] in *. subst c.
  unfold download_nltk_data, cache_resource, download_nltk_data_body,
    try_except_LookupError. cbn [data cached data_trace].
  destruct (lookups_run d tr false) as (looked & d' & _ & Hw & Hr).
  destruct (lookup_resources (DataWorld d tr false)) as [[[]|e'] w'];
    cbn [fst snd] in *; subst w'.
  - destruct Hr as [_ Hall]. rewrite Hres, found_all_app, Hfound in Hall.
    simpl in Hall. by rewrite Hmiss in Hall.
  - destruct Hr as (_ & present' & missing' & rest' & d1' & Hres' & -> & Hf' & Hm').
    destruct (first_missing_unique _ _ _ _ _ _ _ _ _ _ _ _ _
                (eq_trans (eq_sym Hres) Hres') Hfound Hmiss Hf' Hm')
      as [-> ->].
    assert (missing' = missing) as ->.
    { rewrite Hres in Hres'. by apply app_inv_head in Hres' as [= -> _]. }
    rewrite Hmiss in Hm'. simplify_eq. by rewrite He.
Qed.



End DownloadProperties.

(** ** Concrete runs *)

Import Sample.

(** The frequency of the determiner tag in the example sentence. *)
Lemma tag_frequency_exact_witness :
  length (tagged_of sentence (ext story_world)) =
    length (tokens_of sentence (ext story_world)) ∧
  ∃ pos_counts w',
    analyze_pos sentence story_world =
      (Ok (tagged_of sentence (ext story_world), pos_counts), w') ∧
    sum_list pos_counts.*2 = 9 ∧
    (("DT", 2) ∈ pos_counts).
Proof.
  split; [reflexivity |].
  destruct (tag_frequency_exact sentence story_world eq_refl)
    as (pos_counts & w' & Hrun & _ & Hsum & _ & Helem & _).
  exists pos_counts, w'. split_and!; [exact Hrun | exact Hsum |].
  apply Helem. vm_compute. split; [reflexivity | lia].
Defined.

(** A page with an article and an "article-content" block: the article is
    taken after a single query. *)
Lemma selector_priority_witness :
  ∃ resp x,
    http_get address headers 10 (ext story_world) = (Ok resp, x) ∧
    raise_for_status resp = Ok () ∧
    fetch_article address story_world =
    (Ok (PyStr "The cat sat. The dog ran fast."),
     World x [requests_get_call address 10; select_one_call "article"]).
Proof.
  eexists _, _. split; [reflexivity |]. split; [reflexivity |].
  destruct (selector_priority address story_world _ _ eq_refl eq_refl)
    as [Hfirst _].
  refine (Hfirst _ _ eq_refl eq_refl _). vm_compute. discriminate.
Defined.

(** A page whose article holds only blank text, next to an
    "article-content" block with a paragraph: what is returned is the
    paragraph text, not the text of the article. *)
Lemma selector_priority_counterexample :
  ∃ resp x a b,
    http_get address headers 10 (ext hollow_world) = (Ok resp, x) ∧
    raise_for_status resp = Ok () ∧
    css_select_one (cleaned resp) "article" = Some a ∧
    css_select_one (cleaned resp) ".article-content" = Some b ∧
    (fetch_article address hollow_world).1 = Ok (PyStr "Hello") ∧
    (fetch_article address hollow_world).1 ≠ Ok (PyStr (get_text a " " true)).
Proof.
  eexists _, _, _, _.
  split_and!; [reflexivity | reflexivity | reflexivity | reflexivity
              | vm_compute; reflexivity | vm_compute; discriminate].
Qed.


Lemma empty_extraction_is_success_witness :
  (fetch_article address blank_world).1 = Ok (PyStr "") ∧
  (main true address blank_world).1 = Ok () ∧
  last (trace (main true address blank_world).2) =
    Some (st_error "Could not extract text from the article. Please try a different URL.").
Proof.
  assert (Hnone : Forall (no_match (cleaned (Page 200 "OK" address blank_page)))
            selectors) by (repeat constructor).
  destruct (empty_extraction_is_success address blank_world _ _
              eq_refl eq_refl eq_refl Hnone eq_refl) as (-> & _ & ->).
  split_and!; reflexivity.
Defined.



(** A request that times out: the message of the exception is shown and
    nothing else happens. *)
Example timeout_reported :
  run (main true address) timeout_world =
  (Ok (),
   [st_spinner "Fetching article...";
    requests_get_call address 10;
    st_error ("Error fetching article: " +:+ exc_str timeout_error)]).
Proof. vm_compute. reflexivity. Qed.


(** Two empty paragraphs give the text [" "]: it passes the truth test, has
    no token, and the run stops with [IndexError]. *)
Lemma most_common_tag_precondition_witness :
  ∃ w1,
    fetch_article address
      (logged empty_paragraphs_world [st_spinner "Fetching article..."]) =
      (Ok (PyStr " "), w1) ∧
    truthy " " = true ∧
    tokens_of " " (ext w1) = [] ∧
    (main true address empty_paragraphs_world).1 = Raise IndexError.
Proof.
  eexists. split; [reflexivity |]. split; [reflexivity |].
  split; [reflexivity |].
  destruct (most_common_tag_precondition address empty_paragraphs_world " " _
              eq_refl eq_refl eq_refl eq_refl) as [Hfault _].
  destruct (Hfault eq_refl) as [_ ->]. reflexivity.
Defined.

(** The sample words are not deduplicated, and stop at five. *)
Example sample_words_repeated :
  build_pos_examples
    [("the", "DT"); ("cat", "NN"); ("the", "DT"); ("a", "DT"); ("the", "DT");
     ("a", "DT"); ("the", "DT")] !! "DT" =
  Some ["the"; "the"; "a"; "the"; "a"].
Proof. vm_compute. reflexivity. Qed.

(** Tags with equal counts are ranked in the order of first encounter. *)
Example ranking_of_sentence :
  most_common None (Counter (tagged_of sentence (ext story_world)).*2) =
  [("DT", 2); ("NN", 2); ("VBD", 2); (".", 2); ("RB", 1)].
Proof. vm_compute. reflexivity. Qed.

(** ** Further concrete runs *)

Lemma download_on_missing_witness :
  download_nltk_data fresh_install =
  (Ok (),
   DataWorld
     (DataDir ["tokenizers/punkt"; "tokenizers/punkt"; "tokenizers/punkt_tab";
               "taggers/averaged_perceptron_tagger"] [])
     [data_find_call "tokenizers/punkt"; data_find_call "tokenizers/punkt_tab";
      download_call "punkt"; download_call "punkt_tab";
      download_call "averaged_perceptron_tagger"]
     true).
Proof.
  exact (download_on_missing fresh_install
           ["tokenizers/punkt"] "tokenizers/punkt_tab"
           ["taggers/averaged_perceptron_tagger"]
           (missing_error "tokenizers/punkt_tab") _ _ _
           eq_refl eq_refl eq_refl eq_refl eq_refl eq_refl).
Defined.

Lemma download_other_exception_witness :
  download_nltk_data locked_install =
  (Raise (permission_error "taggers/averaged_perceptron_tagger"),
   DataWorld (data locked_install) (data_find_call <$> resources) false).
Proof.
  exact (download_other_exception locked_install
           ["tokenizers/punkt"; "tokenizers/punkt_tab"]
           "taggers/averaged_perceptron_tagger" [] _ _ _
           eq_refl eq_refl eq_refl eq_refl eq_refl).
Defined.

Lemma download_skipped_when_present_witness :
  download_nltk_data (DataWorld (DataDir resources []) [] false) =
  (Ok (), DataWorld (DataDir resources []) (data_find_call <$> resources) true).
Proof.
  exact (download_skipped_when_present
           (DataWorld (DataDir resources []) [] false) _ eq_refl eq_refl).
Defined.

Lemma most_common_unique_witness :
  [("NN", 2); ("DT", 2); ("VB", 1); ("IN", 1)] =
  most_common None (Counter mixed_tags).
Proof.
  apply most_common_unique.
  - eapply NoDup_fmap_1, (Counter_keys_NoDup mixed_tags).
  - apply (sorted_by_count_desc_perm (Counter mixed_tags)).
  - apply (sorted_by_count_desc_sorted (Counter mixed_tags)).
  - intros a b Heq Hb.
    by apply (sorted_by_count_desc_stable a b (Counter mixed_tags)).
Defined.

Lemma most_common_tag_maximal_witness :
  most_common_tag (Counter mixed_tags) = Ok "NN" ∧
  occurrences "DT" mixed_tags ≤ occurrences "NN" mixed_tags ∧
  first_before "NN" "DT" mixed_tags.
Proof.
  destruct (most_common_tag_maximal mixed_tags "NN" eq_refl)
    as (_ & Hmax & Hfirst).
  split_and!; [reflexivity | apply Hmax |].
  apply Hfirst; [discriminate | reflexivity |].
  unfold mixed_tags. right. left.
Defined.

Lemma pos_examples_grow_witness :
  build_pos_examples [("The", "DT"); ("cat", "NN")] !! "DT" = Some ["The"] ∧
  ∃ ws',
    build_pos_examples
      ([("The", "DT"); ("cat", "NN")] ++ [("sat", "VBD"); ("the", "DT")])
      !! "DT" = Some ws' ∧
    ["The"] `prefix_of` ws'.
Proof.
  split; [reflexivity |].
  destruct (pos_examples_grow [("The", "DT"); ("cat", "NN")]
              [("sat", "VBD"); ("the", "DT")] "DT" ["The"] eq_refl)
    as (ws' & Hlookup & Hprefix & _).
  by exists ws'.
Defined.
